(** * qpsolvers: the problem validator and the CVXOPT adapter

    A shallow embedding of

    - [qpsolvers/check_problem_constraints.py] (the problem validator), and
    - [qpsolvers/solvers/cvxopt_.py] (the adapter in front of CVXOPT),

    as programs of a small state-and-exception monad [Py] over a world
    made of the solver library's global option table, the heap of NumPy
    and SciPy arrays, and the trace of the calls made to the solver
    library.  CVXOPT itself ([cvxopt.solvers.qp]) and the conversion the
    adapter imports from [.conversions] are not part of the two files:
    they are variables of the adapter's section.

    The first part holds the definitions: the embedding, the imported
    conversion as the specification describes it, the vocabulary of the
    statements, and a sample problem.  The second part holds the proofs. *)

From Stdlib Require Import PrimFloat ZArith.
From stdpp Require Import base option list strings pretty gmap.

Open Scope string_scope.
Open Scope list_scope.

(** * Part I: definitions *)

(** ** Python values and objects *)

(** Heap addresses of array objects; a Python name holds such an address,
    an [option loc] is a name that may hold [None]. *)
Definition loc := positive.

(** A two-dimensional array of IEEE doubles, kept as its list of rows. *)
Record dense := Dense2 { ncols : nat; rows : list (list float) }.

(** A [scipy.sparse.csc_matrix], kept as what [tocoo()] exposes of it:
    the shape and the three parallel lists [data], [row], [col]. *)
Record csc_matrix := Csc {
  csc_shape : nat * nat;
  csc_data : list float;
  csc_row : list nat;
  csc_col : list nat
}.

(** The array objects a caller may hand to the library. *)
Inductive pyobj :=
  | Vector (v : list float)        (* numpy.ndarray, one-dimensional *)
  | Dense (d : dense)              (* numpy.ndarray, two-dimensional *)
  | Sparse (s : csc_matrix).       (* scipy.sparse.csc_matrix *)

#[global] Instance pyobj_inhabited : Inhabited pyobj := populate (Vector []).

(** Values stored in the solver's option table. *)
Inductive pyval :=
  | PyBool (b : bool)
  | PyInt (z : Z)
  | PyFloat (f : float).

(** Exceptions: the class name and the message. *)
Record exn := Exn { exn_type : string; exn_msg : string }.

Definition ValueError (msg : string) : exn := Exn "ValueError" msg.

(** ** The world and the monad *)

(** CVXOPT's own matrix types: what [qp] receives. *)
Inductive cvxmat :=
  | matrix (d : dense)                                   (* cvxopt.matrix *)
  | spmatrix (V : list float) (I J : list nat) (size : nat * nat).

(** The arguments of one call [qp(P, q, G=, h=, A=, b=, solver=, initvals=)]. *)
Record qp_call := QpCall {
  call_P : cvxmat;
  call_q : cvxmat;
  call_G : option cvxmat;
  call_h : option cvxmat;
  call_A : option cvxmat;
  call_b : option cvxmat;
  call_solver : option string;
  call_initvals : option (gmap string cvxmat)
}.

(** The dictionary [qp] returns, as far as the adapter reads it. *)
Record Sol := mkSol { status : string; x : dense }.

Record World := mkWorld {
  options : gmap string pyval;               (* cvxopt.solvers.options *)
  heap : gmap loc pyobj;                     (* NumPy and SciPy arrays *)
  trace : list (gmap string pyval * qp_call) (* calls made to qp, oldest first *)
}.

Inductive result (A : Type) :=
  | Return (a : A)
  | Raise (e : exn).
Arguments Return {A} a.
Arguments Raise {A} e.

(** A Python computation: it runs in a world and either returns or raises,
    leaving a world behind in both cases. *)
Definition Py (A : Type) : Type := World -> result A * World.

#[global] Instance Py_ret : MRet Py := fun A a w => (Return a, w).

#[global] Instance Py_bind : MBind Py := fun A B k m w =>
  match m w with
  | (Return a, w1) => k a w1
  | (Raise e, w1) => (Raise e, w1)
  end.

Definition raise {A} (e : exn) : Py A := fun w => (Raise e, w).

(** [if c: body] for a body that returns nothing. *)
Definition when (c : bool) (body : Py unit) : Py unit :=
  if c then body else mret tt.

(** Reading the object a name refers to.  A Python name always refers to a
    live object; an address outside the heap reads as the inhabitant. *)
Definition deref (l : loc) : Py pyobj := fun w => (Return (heap w !!! l), w).

(** Creating a new array object. *)
Definition alloc (o : pyobj) : Py loc := fun w =>
  let l := fresh (dom (heap w)) in
  (Return l, mkWorld (options w) (<[l := o]> (heap w)) (trace w)).

(** [options[k] = v] *)
Definition set_option (k : string) (v : pyval) : Py unit := fun w =>
  (Return tt, mkWorld (<[k := v]> (options w)) (heap w) (trace w)).

(** Python's truth value of an option value: [False], [0], [0.0] and
    [-0.0] are false, everything else (NaN included) is true. *)
Definition truthy (v : pyval) : bool :=
  match v with
  | PyBool b => b
  | PyInt z => negb (z =? 0)%Z
  | PyFloat f => negb (f =? 0)%float
  end.

(** [if o: body(o)] for an [Optional] value: [None] is false. *)
Definition if_truthy (o : option pyval) (body : pyval -> Py unit) : Py unit :=
  match o with
  | Some v => when (truthy v) (body v)
  | None => mret tt
  end.

(** [x is None] and [x is not None]. *)
Definition is_None {A} (x : option A) : bool :=
  match x with None => true | Some _ => false end.
Definition is_not_None {A} (x : option A) : bool := negb (is_None x).

(** [needle in hay] on Python strings: substring search. *)
Fixpoint contains (needle hay : string) : bool :=
  String.prefix needle hay ||
  match hay with
  | EmptyString => false
  | String _ hay' => contains needle hay'
  end.

(** ** check_problem_constraints.py *)

Definition check_problem_constraints (G h A b : option loc) : Py unit :=
  when (is_None G && is_not_None h)
    (raise (ValueError "incomplete inequality constraint (missing h)"));;
  when (is_not_None G && is_None h)
    (raise (ValueError "incomplete inequality constraint (missing G)"));;
  when (is_None A && is_not_None b)
    (raise (ValueError "incomplete equality constraint (missing b)"));;
  when (is_not_None A && is_None b)
    (raise (ValueError "incomplete equality constraint (missing A)")).

(** ** solvers/cvxopt_.py *)

(** Line 32, run when the module is imported:
    [options["show_progress"] = False]. *)
Definition module_load : Py unit := set_option "show_progress" (PyBool false).

(** [cvxopt.matrix(M)] of a NumPy array copies it; a one-dimensional array
    of length n becomes an n-by-1 column. *)
Definition column (v : list float) : dense := Dense2 1 ((fun a => [a]) <$> v).

Definition to_cvxopt (M : loc) : Py cvxmat :=
  o ← deref M;
  match o with
  | Vector v => mret (matrix (column v))
  | Dense d => mret (matrix d)
  | Sparse s =>
      (* coo = M.tocoo() *)
      mret (spmatrix (csc_data s) (csc_row s) (csc_col s) (csc_shape s))
  end.

(** [q.shape[0]] *)
Definition shape0 (o : pyobj) : nat :=
  match o with
  | Vector v => length v
  | Dense d => length (rows d)
  | Sparse s => (csc_shape s).1
  end.

(** The entries of an array in row order, as one list. *)
Definition ravel (o : pyobj) : list float :=
  match o with
  | Vector v => v
  | Dense d => concat (rows d)
  | Sparse s => csc_data s
  end.

(** [array(m).reshape((n,))]: [array] copies the CVXOPT matrix into a new
    two-dimensional array, [reshape] gives a new one-dimensional array of
    its entries in row order, or raises when the sizes differ. *)
Definition array (m : dense) : Py loc := alloc (Dense m).

Definition reshape (a : loc) (n : nat) : Py loc :=
  o ← deref a;
  let data := ravel o in
  if decide (length data = n) then alloc (Vector data)
  else raise (ValueError ("cannot reshape array of size " +:+ pretty (length data)
                            +:+ " into shape (" +:+ pretty n +:+ ",)")).

Section Adapter.

(** [from .conversions import linear_from_box_inequalities] *)
Variable linear_from_box_inequalities :
  option loc -> option loc -> option loc -> option loc ->
  Py (option loc * option loc).

(** [from cvxopt.solvers import qp]: the solver reads the global option
    table and the arguments of the call. *)
Variable qp : gmap string pyval -> qp_call -> result Sol.

(** One call of [qp], entered in the trace. *)
Definition call_qp (c : qp_call) : Py Sol := fun w =>
  (qp (options w) c,
   mkWorld (options w) (heap w) (trace w ++ [(options w, c)])).

Definition cvxopt_solve_qp
    (P q : loc) (G h A b lb ub : option loc)
    (solver : option string) (initvals : option loc) (verbose : bool)
    (maxiters : option Z) (abstol reltol feastol : option float)
    (refinement : option Z) : Py (option loc) :=
  '(G, h) ← (if is_not_None lb || is_not_None ub
             then linear_from_box_inequalities G h lb ub
             else mret (G, h));
  (* Update solver options if applicable *)
  set_option "show_progress" (PyBool verbose);;
  if_truthy (PyInt <$> maxiters) (set_option "maxiters");;
  if_truthy (PyFloat <$> abstol) (set_option "abstol");;
  if_truthy (PyFloat <$> reltol) (set_option "reltol");;
  if_truthy (PyFloat <$> feastol) (set_option "feastol");;
  if_truthy (PyInt <$> refinement) (set_option "refinement");;
  P' ← to_cvxopt P;
  q' ← to_cvxopt q;
  '(kwG, kwh) ← match G, h return Py (option cvxmat * option cvxmat) with
                | Some G, Some h =>
                    G' ← to_cvxopt G; h' ← to_cvxopt h; mret (Some G', Some h')
                | _, _ => mret (None, None)
                end;
  '(kwA, kwb) ← match A, b return Py (option cvxmat * option cvxmat) with
                | Some A, Some b =>
                    A' ← to_cvxopt A; b' ← to_cvxopt b; mret (Some A', Some b')
                | _, _ => mret (None, None)
                end;
  initvals_dict ← match initvals return Py (option (gmap string cvxmat)) with
                  | Some initvals =>
                      x0 ← to_cvxopt initvals; mret (Some {[ "x" := x0 ]})
                  | None => mret None
                  end;
  sol ← call_qp (QpCall P' q' kwG kwh kwA kwb solver initvals_dict);
  if negb (contains "optimal" (status sol)) then mret (M := Py) None
  else
    a ← array (x sol);
    qo ← deref q;
    r ← reshape a (shape0 qo);
    mret (Some r).

End Adapter.

(** ** The imported box conversion, as the specification describes it *)

(** [linear_from_box_inequalities] is defined in
    [qpsolvers/solvers/conversions.py], which is not among the sources at
    hand.  The definitions of this section follow section 4.2 of the
    specification instead, up to [canonicalize_box]. *)

(** Modelled from the spec: the bounds that count in the missing
    [linear_from_box_inequalities].  These are the components of a bound vector that are
    finite, each with its variable index, in index order.  An infinite
    component, or one the caller left out (a NaN in an array of doubles),
    is skipped. *)
Definition finite_bounds (v : list float) : list (nat * float) :=
  List.filter (fun p => is_finite p.2) (imap pair v).

(** Modelled from the spec: one inequality row generated by the missing
    [linear_from_box_inequalities], with coefficient [coeff] at variable [var],
    zero at the other [width - 1] variables, and a right-hand side. *)
Record box_row := BoxRow { var : nat; coeff : float; rhs : float; width : nat }.

(** The row [c * e_i] of an [n]-variable problem: [c] in column [i] and
    zero in the other columns. *)
Definition basis_row (n i : nat) (c : float) : list float :=
  (fun j => if Nat.eqb j i then c else 0%float) <$> seq 0 n.

Definition row_entries (r : box_row) : list float :=
  basis_row (width r) (var r) (coeff r).

(** Modelled from the spec: the rows the missing
    [linear_from_box_inequalities] generates.  Lower bound [lb_i <= x_i]
    is the row [-e_i] with right-hand side [-lb_i], upper bound
    [x_i <= ub_i] the row [e_i] with right-hand side [ub_i]. *)
Definition lower_rows (lb : list float) : list box_row :=
  (fun p => BoxRow p.1 (-1)%float (- p.2)%float (length lb)) <$> finite_bounds lb.

Definition upper_rows (ub : list float) : list box_row :=
  (fun p => BoxRow p.1 1%float p.2 (length ub)) <$> finite_bounds ub.

(** Modelled from the spec: how the missing
    [linear_from_box_inequalities] stacks the generated rows below the
    original matrix.  A two-dimensional array gets
    the rows appended, a sparse matrix gets one stored entry per row, a
    one-dimensional array counts as a single row. *)
Definition vstack (G : pyobj) (rs : list box_row) : pyobj :=
  match G with
  | Dense d => Dense (Dense2 (ncols d) (rows d ++ (row_entries <$> rs)))
  | Vector v => Dense (Dense2 (length v) (v :: (row_entries <$> rs)))
  | Sparse s =>
      let m := (csc_shape s).1 in
      Sparse (Csc (m + length rs, (csc_shape s).2)
                  (csc_data s ++ (coeff <$> rs))
                  (csc_row s ++ seq m (length rs))
                  (csc_col s ++ (var <$> rs)))
  end.

(** Modelled from the spec: the row order of the missing
    [linear_from_box_inequalities], lower bounds by index, then upper
    bounds by index; an absent bound vector gives no row. *)
Definition box_rows (lb ub : option pyobj) : list box_row :=
  from_option (lower_rows ∘ ravel) [] lb ++ from_option (upper_rows ∘ ravel) [] ub.

(** The number of variables, read off the bound vectors. *)
Definition box_width (lb ub : option pyobj) : nat :=
  from_option (length ∘ ravel) (from_option (length ∘ ravel) 0 ub) lb.

(** Modelled from the spec: the results [G'] and [h'] of the missing
    [linear_from_box_inequalities], the original above the generated
    rows, and absent when there is neither an original nor a generated
    row. *)
Definition stack_G (G : option pyobj) (n : nat) (rs : list box_row) : option pyobj :=
  match G with
  | Some G => Some (vstack G rs)
  | None => if rs is [] then None else Some (Dense (Dense2 n (row_entries <$> rs)))
  end.

Definition stack_h (h : option pyobj) (rs : list box_row) : option pyobj :=
  match h with
  | Some h => Some (Vector (ravel h ++ (rhs <$> rs)))
  | None => if rs is [] then None else Some (Vector (rhs <$> rs))
  end.

Definition deref_opt (l : option loc) : Py (option pyobj) :=
  match l with
  | Some l => o ← deref l; mret (Some o)
  | None => mret None
  end.

Definition alloc_opt (o : option pyobj) : Py (option loc) :=
  match o with
  | Some o => l ← alloc o; mret (Some l)
  | None => mret None
  end.

(** Modelled from the spec: [linear_from_box_inequalities] lives in
    [qpsolvers/solvers/conversions.py], which is not among the sources at
    hand; this is the contract [canonicalize_box(G, h, lb, ub) -> (G', h')]
    of section 4.2.  For each finite [lb_i] it appends the row [-e_i] with
    right-hand side [-lb_i], for each finite [ub_i] the row [e_i] with
    right-hand side [ub_i]; [G'] stacks the original [G], if present,
    above the generated rows, lower bounds first, and [h'] is concatenated
    likewise; with [G] and [h] absent and no finite bound the result is
    [(None, None)].  The results are new arrays. *)
Definition canonicalize_box (G h lb ub : option loc) : Py (option loc * option loc) :=
  Go ← deref_opt G;
  ho ← deref_opt h;
  lbo ← deref_opt lb;
  ubo ← deref_opt ub;
  let rs := box_rows lbo ubo in
  G' ← alloc_opt (stack_G Go (box_width lbo ubo) rs);
  h' ← alloc_opt (stack_h ho rs);
  mret (G', h').

(** ** The vocabulary of the statements *)

Definition raises {A} (r : result A) : Prop := exists e, r = Raise e.

(** The CVXOPT copy of an array object: [to_cvxopt] without the read. *)
Definition converted (o : pyobj) : cvxmat :=
  match o with
  | Vector v => matrix (column v)
  | Dense d => matrix d
  | Sparse s => spmatrix (csc_data s) (csc_row s) (csc_col s) (csc_shape s)
  end.

(** The option table after [if o: options[k] = o]. *)
Definition store_if_truthy (k : string) (o : option pyval)
    (t : gmap string pyval) : gmap string pyval :=
  match o with
  | Some v => if truthy v then <[k := v]> t else t
  | None => t
  end.

(** The option table after lines 175 to 185. *)
Definition options_after (verbose : bool) (maxiters : option Z)
    (abstol reltol feastol : option float) (refinement : option Z)
    (t : gmap string pyval) : gmap string pyval :=
  store_if_truthy "refinement" (PyInt <$> refinement)
    (store_if_truthy "feastol" (PyFloat <$> feastol)
      (store_if_truthy "reltol" (PyFloat <$> reltol)
        (store_if_truthy "abstol" (PyFloat <$> abstol)
          (store_if_truthy "maxiters" (PyInt <$> maxiters)
            (<["show_progress" := PyBool verbose]> t))))).

(** The keyword pair lines 189 to 194 pass on: both or neither. *)
Definition kw_pair (hp : gmap loc pyobj) (M v : option loc)
    : option cvxmat * option cvxmat :=
  match M, v with
  | Some M, Some v => (Some (converted (hp !!! M)), Some (converted (hp !!! v)))
  | _, _ => (None, None)
  end.

(** The call lines 187 to 198 assemble from the heap [hp]. *)
Definition prepared_call (hp : gmap loc pyobj) (P q : loc)
    (G h A b : option loc) (solver : option string) (initvals : option loc)
    : qp_call :=
  QpCall (converted (hp !!! P)) (converted (hp !!! q))
         (kw_pair hp G h).1 (kw_pair hp G h).2
         (kw_pair hp A b).1 (kw_pair hp A b).2
         solver
         ((fun i => {[ "x" := converted (hp !!! i) ]}) <$> initvals).

(** Lines 199 to 201 on the dictionary [sol] the backend returned. *)
Definition returned (sol : Sol) (q : loc) (t : gmap string pyval)
    (hp : gmap loc pyobj) (tr : list (gmap string pyval * qp_call))
    : result (option loc) * World :=
  if contains "optimal" (status sol) then
    let a := fresh (dom hp) in
    let hp1 := <[a := Dense (x sol)]> hp in
    let data := concat (rows (x sol)) in
    let n := shape0 (hp1 !!! q) in
    if decide (length data = n)
    then (Return (Some (fresh (dom hp1))),
          mkWorld t (<[fresh (dom hp1) := Vector data]> hp1) tr)
    else (Raise (ValueError ("cannot reshape array of size "
                               +:+ pretty (length data)
                               +:+ " into shape (" +:+ pretty n +:+ ",)")),
          mkWorld t hp1 tr)
  else (Return None, mkWorld t hp tr).

(** Lines 171 and 172, with [f] for the imported conversion. *)
Definition box_step
    (f : option loc -> option loc -> option loc -> option loc ->
         Py (option loc * option loc))
    (G h lb ub : option loc) : Py (option loc * option loc) :=
  if is_not_None lb || is_not_None ub then f G h lb ub else mret (G, h).

(** What a tuning argument [arg] leaves under its key, where [old] was. *)
Definition left_in_table (arg old : option pyval) : option pyval :=
  match arg with
  | Some v => if truthy v then Some v else old
  | None => old
  end.

Definition option_names : list string :=
  ["show_progress"; "maxiters"; "abstol"; "reltol"; "feastol"; "refinement"].

(** The heap after [alloc_opt o], and the name it returns. *)
Definition heap_with (o : option pyobj) (hp : gmap loc pyobj) : gmap loc pyobj :=
  match o with
  | Some o => <[fresh (dom hp) := o]> hp
  | None => hp
  end.

Definition name_of (o : option pyobj) (hp : gmap loc pyobj) : option loc :=
  match o with
  | Some _ => Some (fresh (dom hp))
  | None => None
  end.

(** [x] if its partner [y] is there too, [None] otherwise. *)
Definition with_partner (x y : option loc) : option loc :=
  if is_None y then None else x.

(** A computation keeps the arrays when every object on the heap before
    it is on the heap, unchanged, after it. *)
Definition keeps_arrays {A} (m : Py A) : Prop :=
  forall w, heap w ⊆ heap (m w).2.

(** What is assumed of the imported conversion.  The adapter's theorems
    need little of [linear_from_box_inequalities]: that it returns, that
    it leaves the option table and the trace alone, and that the arrays on
    the heap keep their values. *)
Class BoxConversion
    (f : option loc -> option loc -> option loc -> option loc ->
         Py (option loc * option loc)) : Prop := {
  box_runs G h lb ub w :
    exists r w', f G h lb ub w = (Return r, w')
                 /\ options w' = options w /\ trace w' = trace w;
  box_keeps G h lb ub w : heap w ⊆ heap (f G h lb ub w).2
}.

(** ** Matrices by rows, and well-formed problems *)

(** The rows of a matrix held as triplets: entry [(i, j)] is the sum of
    the values stored at [(i, j)] (SciPy and CVXOPT add duplicates), zero
    when nothing is stored there. *)
Definition triplets (V : list float) (rowi coli : list nat)
    : list (float * nat * nat) :=
  zip (zip V rowi) coli.

Definition add_at (i j : nat) (acc : float) (e : float * nat * nat) : float :=
  if Nat.eqb e.1.2 i && Nat.eqb e.2 j then (acc + e.1.1)%float else acc.

Definition sp_entry (V : list float) (rowi coli : list nat) (i j : nat) : float :=
  foldl (add_at i j) 0%float (triplets V rowi coli).

Definition sp_rows (V : list float) (rowi coli : list nat) (size : nat * nat)
    : list (list float) :=
  (fun i => (fun j => sp_entry V rowi coli i j) <$> seq 0 size.2) <$> seq 0 size.1.

(** The rows of a CVXOPT matrix, and of a two-dimensional array. *)
Definition cvx_rows (m : cvxmat) : list (list float) :=
  match m with
  | matrix d => rows d
  | spmatrix V rowi coli size => sp_rows V rowi coli size
  end.

Definition array_rows (o : pyobj) : list (list float) :=
  match o with
  | Vector v => [v]
  | Dense d => rows d
  | Sparse s => sp_rows (csc_data s) (csc_row s) (csc_col s) (csc_shape s)
  end.

(** The triplets [vstack] adds for the rows [rs] below [m] rows. *)
Definition new_triplets (m : nat) (rs : list box_row) : list (float * nat * nat) :=
  triplets (coeff <$> rs) (seq m (length rs)) (var <$> rs).

(** The inequality rows and right-hand sides the backend is given; a pair
    that is not passed has none. *)
Definition rows_passed (G : option cvxmat) : list (list float) :=
  from_option cvx_rows [] G.

Definition rhs_passed (h : option cvxmat) : list float :=
  from_option (fun m => concat (cvx_rows m)) [] h.

(** The rows of the caller's [G], the entries of the caller's [h], [lb]
    and [ub]; an absent argument has none. *)
Definition rows_at (w : World) (G : option loc) : list (list float) :=
  from_option (fun g => array_rows (heap w !!! g)) [] G.

Definition vec_at (w : World) (v : option loc) : list float :=
  from_option (fun l => ravel (heap w !!! l)) [] v.

(** One-dimensional arrays, and matrices: two-dimensional arrays, or
    sparse matrices with [n] columns whose three lists have one length and
    whose row indices are in range. *)
Definition is_vector (o : pyobj) : Prop :=
  match o with Vector _ => True | _ => False end.

Definition is_matrix (n : nat) (o : pyobj) : Prop :=
  match o with
  | Vector _ => False
  | Dense _ => True
  | Sparse s =>
      length (csc_data s) = length (csc_row s)
      /\ length (csc_row s) = length (csc_col s)
      /\ Forall (fun i => i < (csc_shape s).1) (csc_row s)
      /\ (csc_shape s).2 = n
  end.

(** A problem in [n] variables, as far as the inequality side goes: [G]
    and [h] come together, [G] is a matrix, [h], [lb] and [ub] are
    one-dimensional, the bounds of length [n]. *)
Definition box_problem (w : World) (G h lb ub : option loc) (n : nat) : Prop :=
  is_None G = is_None h
  /\ from_option (fun g => is_matrix n (heap w !!! g)) True G
  /\ from_option (fun l => is_vector (heap w !!! l)) True h
  /\ from_option (fun l => is_vector (heap w !!! l)
                           /\ length (ravel (heap w !!! l)) = n) True lb
  /\ from_option (fun l => is_vector (heap w !!! l)
                           /\ length (ravel (heap w !!! l)) = n) True ub.

(** A name that refers to an array of the heap; an absent argument needs
    none. *)
Definition live (w : World) (l : loc) : Prop := is_Some (heap w !! l).

Definition live_opt (w : World) (l : option loc) : Prop :=
  from_option (live w) True l.

(** ** A sample problem *)

(** A backend that reports the status it is told to and the point
    [(0.5, 0.5)], and one that fails the way CVXOPT does on a
    rank-deficient problem. *)
Definition sample_qp (st : string) : gmap string pyval -> qp_call -> result Sol :=
  fun _ _ => Return (mkSol st (column [0.5; 0.5]%float)).

Definition failing_qp : gmap string pyval -> qp_call -> result Sol :=
  fun _ _ => Raise (ValueError "Rank(A) < p or Rank([P; A; G]) < n").

(** A world right after the module was loaded, holding the arrays of a
    problem in two variables. *)
Definition sample_P : loc := 1%positive.
Definition sample_q : loc := 2%positive.
Definition sample_lb : loc := 3%positive.
Definition sample_ub : loc := 4%positive.
Definition sample_G : loc := 5%positive.
Definition sample_h : loc := 6%positive.
Definition sample_Gs : loc := 7%positive.

Definition sample_world : World :=
  mkWorld {[ "show_progress" := PyBool false ]}
          {[ sample_P := Dense (Dense2 2 [[1; 0]; [0; 1]]%float);
             sample_q := Vector [0; 0]%float;
             sample_lb := Vector [-1; nan]%float;
             sample_ub := Vector [nan; 2]%float;
             sample_G := Dense (Dense2 2 [[-1; -1]]%float);
             sample_h := Vector [-1]%float;
             sample_Gs := Sparse (Csc (1, 2) [-1; -1]%float [0; 0] [0; 1]) ]}
          [].

(** A call on the sample problem: [cvxopt_solve_qp(P, q, G, h, lb=lb,
    ub=ub, verbose=verbose, maxiters=maxiters)]. *)
Definition sample_solve (qp : gmap string pyval -> qp_call -> result Sol)
    (G h lb ub : option loc) (verbose : bool) (maxiters : option Z)
    : result (option loc) * World :=
  cvxopt_solve_qp canonicalize_box qp sample_P sample_q G h None None lb ub
    None None verbose maxiters None None None None sample_world.

(** The world an earlier call with [refinement=2] leaves behind. *)
Definition earlier_world : World :=
  (cvxopt_solve_qp canonicalize_box (sample_qp "optimal") sample_P sample_q
     None None None None None None None None false None None None None
     (Some 2%Z) sample_world).2.

(** A backend whose point has three entries, one more than [q]. *)
Definition oversized_qp : gmap string pyval -> qp_call -> result Sol :=
  fun _ _ => Return (mkSol "optimal" (column [0.5; 0.5; 0]%float)).

(** * Part II: proofs *)

(** ** Running the primitives *)

Lemma bind_run {A B} (m : Py A) (k : A -> Py B) (w w1 : World) (a : A) :
  m w = (Return a, w1) -> (m ≫= k) w = k a w1.
Proof. unfold mbind, Py_bind. by intros ->. Qed.

Lemma to_cvxopt_run (M : loc) (w : World) :
  to_cvxopt M w = (Return (converted (heap w !!! M)), w).
Proof.
  unfold to_cvxopt. erewrite bind_run by reflexivity.
  by destruct (heap w !!! M).
Qed.

Lemma reshape_run (a : loc) (n : nat) (w : World) :
  reshape a n w
  = let data := ravel (heap w !!! a) in
    if decide (length data = n) then alloc (Vector data) w
    else raise (ValueError ("cannot reshape array of size "
                              +:+ pretty (length data)
                              +:+ " into shape (" +:+ pretty n +:+ ",)")) w.
Proof.
  unfold reshape. erewrite bind_run by reflexivity. cbn zeta.
  by destruct (decide _).
Qed.

Lemma if_truthy_run (k : string) (o : option pyval) t hp tr :
  if_truthy o (set_option k) (mkWorld t hp tr)
  = (Return tt, mkWorld (store_if_truthy k o t) hp tr).
Proof. destruct o as [v|]; [|done]. cbn. by destruct (truthy v). Qed.

(** The whole adapter, once the box step has returned [(G1, h1)] in the
    world [w1]. *)
Lemma cvxopt_solve_qp_run f qp P q G h A b lb ub solver initvals verbose
    maxiters abstol reltol feastol refinement w G1 h1 w1 :
  box_step f G h lb ub w = (Return (G1, h1), w1) ->
  cvxopt_solve_qp f qp P q G h A b lb ub solver
    initvals verbose maxiters abstol reltol feastol refinement w
  = let t := options_after verbose maxiters abstol reltol feastol refinement
               (options w1) in
    let c := prepared_call (heap w1) P q G1 h1 A b solver initvals in
    let tr := trace w1 ++ [(t, c)] in
    match qp t c with
    | Return sol => returned sol q t (heap w1) tr
    | Raise e => (Raise e, mkWorld t (heap w1) tr)
    end.
Proof.
  intros Hbox. unfold cvxopt_solve_qp.
  unfold box_step in Hbox. rewrite (bind_run _ _ _ _ _ Hbox). cbn beta iota.
  destruct w1 as [t0 hp tr0]. cbn [options heap trace].
  erewrite bind_run by reflexivity.
  do 5 (erewrite bind_run by apply if_truthy_run).
  do 2 (erewrite bind_run by apply to_cvxopt_run). cbn [heap].
  unfold options_after.
  set (t := store_if_truthy "refinement" _ _).
  erewrite (bind_run _ _ _ _ (kw_pair hp G1 h1)); cycle 1.
  { destruct G1 as [g|], h1 as [hh|]; try reflexivity. cbn [kw_pair].
    do 2 (erewrite bind_run by apply to_cvxopt_run). reflexivity. }
  unfold prepared_call.
  destruct (kw_pair hp G1 h1) as [kwG kwh]. cbn beta iota.
  erewrite (bind_run _ _ _ _ (kw_pair hp A b)); cycle 1.
  { destruct A as [a|], b as [bb|]; try reflexivity. cbn [kw_pair].
    do 2 (erewrite bind_run by apply to_cvxopt_run). reflexivity. }
  destruct (kw_pair hp A b) as [kwA kwb]. cbn beta iota.
  erewrite (bind_run _ _ _ _
              ((fun i => {[ "x" := converted (hp !!! i) ]}) <$> initvals));
    cycle 1.
  { destruct initvals as [i|]; [|reflexivity].
    erewrite bind_run by apply to_cvxopt_run. reflexivity. }
  cbn zeta. cbn [fst snd].
  set (c := QpCall _ _ _ _ _ _ _ _).
  unfold mbind at 1, Py_bind at 1. unfold call_qp at 1. cbn [options heap trace].
  destruct (qp t c) as [sol|e]; [|reflexivity].
  unfold returned. destruct (contains "optimal" (status sol)); [|reflexivity].
  cbn [negb]. unfold array.
  erewrite bind_run by reflexivity.
  erewrite bind_run by reflexivity.
  cbn [heap options trace].
  unfold mbind at 1, Py_bind at 1. rewrite reshape_run.
  cbn [heap]. rewrite lookup_total_insert_eq. cbn [ravel].
  by destruct (decide _).
Qed.

Lemma returned_options sol q t hp tr : options (returned sol q t hp tr).2 = t.
Proof.
  unfold returned. destruct (contains _ _); [|done]. cbn zeta.
  by destruct (decide _).
Qed.

Lemma returned_trace sol q t hp tr : trace (returned sol q t hp tr).2 = tr.
Proof.
  unfold returned. destruct (contains _ _); [|done]. cbn zeta.
  by destruct (decide _).
Qed.

Lemma fresh_not_allocated (hp : gmap loc pyobj) : hp !! fresh (dom hp) = None.
Proof. apply not_elem_of_dom, is_fresh. Qed.

(** ** The validator *)

(** C1. The validator raises exactly when one of [G], [h] is present and
    the other absent, or one of [A], [b] is present and the other absent;
    when both of each pair are present or both absent it returns, and the
    world is as it was. *)
Theorem check_problem_constraints_raises_iff (G h A b : option loc) (w : World) :
  (raises (check_problem_constraints G h A b w).1 <->
     is_None G <> is_None h \/ is_None A <> is_None b)
  /\ ((check_problem_constraints G h A b w).1 = Return tt <->
      is_None G = is_None h /\ is_None A = is_None b)
  /\ (check_problem_constraints G h A b w).2 = w.
Proof.
  unfold raises.
  destruct G, h, A, b; cbn; (split; [|split]); try done;
    split; try (intros [e He]); try (intros [? | ?]); try (intros [? ?]);
    try done; eauto.
Qed.

(** C9. Two calls of the validator whose arguments are present and absent
    in the same places end the same way, with the same exception and
    message if they raise, whatever the arrays are and whatever the two
    worlds hold; and the validator leaves its world as it found it. *)
Theorem check_problem_constraints_presence_only
    (G1 h1 A1 b1 G2 h2 A2 b2 : option loc) (w1 w2 : World) :
  is_None G1 = is_None G2 -> is_None h1 = is_None h2 ->
  is_None A1 = is_None A2 -> is_None b1 = is_None b2 ->
  (check_problem_constraints G1 h1 A1 b1 w1).1
  = (check_problem_constraints G2 h2 A2 b2 w2).1
  /\ (check_problem_constraints G1 h1 A1 b1 w1).2 = w1
  /\ (check_problem_constraints G2 h2 A2 b2 w2).2 = w2.
Proof.
  destruct G1, G2; try discriminate; intros _;
  destruct h1, h2; try discriminate; intros _;
  destruct A1, A2; try discriminate; intros _;
  destruct b1, b2; try discriminate; intros _; done.
Qed.

(** ** The option table after lines 175 to 185 *)

Lemma store_if_truthy_lookup k o t k' :
  store_if_truthy k o t !! k'
  = if decide (k = k') then left_in_table o (t !! k') else t !! k'.
Proof.
  unfold store_if_truthy, left_in_table.
  destruct o as [v|]; [destruct (truthy v)|]; case_decide; subst;
    by rewrite ?lookup_insert_eq, ?lookup_insert_ne.
Qed.

Ltac decide_names :=
  repeat match goal with
    | |- context [decide (?a = ?b)] =>
        destruct (decide (a = b)) as [?E|?E];
        [first [discriminate | subst] | try (exfalso; by apply E)]
    end.

Lemma options_after_lookup verbose maxiters abstol reltol feastol refinement t :
  let t' := options_after verbose maxiters abstol reltol feastol refinement t in
  t' !! "show_progress" = Some (PyBool verbose)
  /\ t' !! "maxiters" = left_in_table (PyInt <$> maxiters) (t !! "maxiters")
  /\ t' !! "abstol" = left_in_table (PyFloat <$> abstol) (t !! "abstol")
  /\ t' !! "reltol" = left_in_table (PyFloat <$> reltol) (t !! "reltol")
  /\ t' !! "feastol" = left_in_table (PyFloat <$> feastol) (t !! "feastol")
  /\ t' !! "refinement" = left_in_table (PyInt <$> refinement) (t !! "refinement")
  /\ forall k, k ∉ option_names -> t' !! k = t !! k.
Proof.
  cbn zeta. unfold options_after.
  repeat split; try (intros k Hk); rewrite !store_if_truthy_lookup.
  all: decide_names.
  all: try solve [exfalso; apply Hk; unfold option_names;
                  repeat first [apply list_elem_of_here | apply list_elem_of_further]].
  all: rewrite ?lookup_insert_eq; try reflexivity.
  all: rewrite lookup_insert_ne; [reflexivity|].
  all: try (intros E'; discriminate E').
  intros <-. apply Hk. apply list_elem_of_here.
Qed.

(** The tests of lines 176 to 185 in general: a tuning argument reaches
    the table exactly when its truth value is true. *)
Lemma left_in_table_forwarded (arg old : option pyval) (v : pyval) :
  left_in_table arg old = Some v ->
  (arg = Some v /\ truthy v = true) \/ old = Some v.
Proof.
  unfold left_in_table. destruct arg as [a|]; [|by right].
  destruct (truthy a) eqn:Ha; [|by right]. intros [= ->]. by left.
Qed.

(** ** The modelled conversion meets what is assumed of it *)

Lemma deref_opt_run (l : option loc) (w : World) :
  deref_opt l w = (Return ((fun l => heap w !!! l) <$> l), w).
Proof. by destruct l. Qed.

Lemma alloc_opt_run (o : option pyobj) t hp tr :
  alloc_opt o (mkWorld t hp tr)
  = (Return (name_of o hp), mkWorld t (heap_with o hp) tr).
Proof. by destruct o. Qed.

Lemma heap_with_subseteq (o : option pyobj) (hp : gmap loc pyobj) :
  hp ⊆ heap_with o hp.
Proof.
  destruct o; [|done]. apply insert_subseteq, fresh_not_allocated.
Qed.

Lemma canonicalize_box_run (G h lb ub : option loc) t hp tr :
  let obj := fmap (M := option) (fun l => hp !!! l) in
  let rs := box_rows (obj lb) (obj ub) in
  let G' := stack_G (obj G) (box_width (obj lb) (obj ub)) rs in
  let h' := stack_h (obj h) rs in
  canonicalize_box G h lb ub (mkWorld t hp tr)
  = (Return (name_of G' hp, name_of h' (heap_with G' hp)),
     mkWorld t (heap_with h' (heap_with G' hp)) tr).
Proof.
  cbn zeta. unfold canonicalize_box.
  do 4 (erewrite bind_run by apply deref_opt_run). cbn [heap].
  erewrite bind_run by apply alloc_opt_run.
  erewrite bind_run by apply alloc_opt_run.
  reflexivity.
Qed.

#[global] Instance canonicalize_box_conversion : BoxConversion canonicalize_box.
Proof.
  split; intros G h lb ub [t hp tr]; rewrite canonicalize_box_run; cbn zeta.
  - eexists _, _. by split.
  - cbn [snd heap]. etrans; apply heap_with_subseteq.
Qed.

(** ** One call to the backend *)

Lemma box_step_run f `{!BoxConversion f} G h lb ub w :
  exists G1 h1 w1,
    box_step f G h lb ub w = (Return (G1, h1), w1)
    /\ options w1 = options w /\ trace w1 = trace w /\ heap w ⊆ heap w1.
Proof.
  unfold box_step. destruct (is_not_None lb || is_not_None ub).
  - destruct (box_runs G h lb ub w) as ([G1 h1] & w1 & Hr & Ho & Ht).
    exists G1, h1, w1. repeat split; try done.
    pose proof (box_keeps G h lb ub w) as Hk. by rewrite Hr in Hk.
  - by exists G, h, w.
Qed.

(** The adapter makes exactly one call to the backend, with the option
    table of lines 175 to 185, and what it returns is decided by that
    call alone. *)
Lemma cvxopt_solve_qp_one_call f `{!BoxConversion f} qp P q G h A b lb ub
    solver initvals verbose maxiters abstol reltol feastol refinement w :
  let t := options_after verbose maxiters abstol reltol feastol refinement
             (options w) in
  exists hp c,
    heap w ⊆ hp /\
    cvxopt_solve_qp f qp P q G h A b lb ub solver initvals verbose
      maxiters abstol reltol feastol refinement w
    = match qp t c with
      | Return sol => returned sol q t hp (trace w ++ [(t, c)])
      | Raise e => (Raise e, mkWorld t hp (trace w ++ [(t, c)]))
      end.
Proof.
  intros t.
  destruct (box_step_run f G h lb ub w) as (G1 & h1 & w1 & Hr & Ho & Ht & Hh).
  exists (heap w1), (prepared_call (heap w1) P q G1 h1 A b solver initvals).
  split; [done|].
  rewrite (cvxopt_solve_qp_run _ _ _ _ _ _ _ _ _ _ _ _ _ _ _ _ _ _ _ _ _ _ Hr).
  cbn zeta. rewrite Ho, Ht. reflexivity.
Qed.

(** ** The outcome of a call *)

Section Outcome.

Context (f : option loc -> option loc -> option loc -> option loc ->
             Py (option loc * option loc)) `{!BoxConversion f}.
Variable qp : gmap string pyval -> qp_call -> result Sol.
Variables (P q : loc) (G h A b lb ub : option loc)
          (solver : option string) (initvals : option loc) (verbose : bool)
          (maxiters : option Z) (abstol reltol feastol : option float)
          (refinement : option Z) (w : World).

Local Abbreviation r :=
  (cvxopt_solve_qp f qp P q G h A b lb ub solver initvals verbose
     maxiters abstol reltol feastol refinement w).

Lemma one_call_trace :
  exists t c hp,
    trace r.2 = trace w ++ [(t, c)] /\ options r.2 = t /\ heap w ⊆ hp
    /\ t = options_after verbose maxiters abstol reltol feastol refinement
             (options w)
    /\ r = match qp t c with
           | Return sol => returned sol q t hp (trace w ++ [(t, c)])
           | Raise e => (Raise e, mkWorld t hp (trace w ++ [(t, c)]))
           end.
Proof.
  destruct (cvxopt_solve_qp_one_call f qp P q G h A b lb ub solver initvals
              verbose maxiters abstol reltol feastol refinement w)
    as (hp & c & Hhp & Hr).
  exists (options_after verbose maxiters abstol reltol feastol refinement
            (options w)), c, hp.
  rewrite Hr.
  destruct (qp _ c) as [sol|e]; cbn [snd trace options];
    rewrite ?returned_trace, ?returned_options; by repeat split.
Qed.

(** C2. The adapter returns [None] exactly when the status the backend
    reported does not contain "optimal", and then it returns normally;
    when the status contains "optimal" and the backend's point has as
    many entries as [q], it returns that point as a new one-dimensional
    array. *)
Theorem cvxopt_solve_qp_none_iff_not_optimal (qo : pyobj) :
  heap w !! q = Some qo ->
  exists t c,
    trace r.2 = trace w ++ [(t, c)] /\
    forall sol, qp t c = Return sol ->
      let v := concat (rows (x sol)) in
      (r.1 = Return None <-> contains "optimal" (status sol) = false)
      /\ (contains "optimal" (status sol) = true ->
          length v = shape0 qo ->
          exists l, r.1 = Return (Some l) /\ heap r.2 !! l = Some (Vector v)).
Proof.
  intros Hq.
  destruct one_call_trace as (t & c & hp & Htr & _ & Hhp & _ & Hr).
  exists t, c. split; [done|]. intros sol Hsol v.
  rewrite Hr, Hsol. unfold returned.
  destruct (contains "optimal" (status sol)); [|by split]. cbn zeta.
  assert (Hq1 : <[fresh (dom hp) := Dense (x sol)]> hp !!! q = qo).
  { apply lookup_total_correct. rewrite lookup_insert_ne.
    - by eapply lookup_weaken.
    - intros E. pose proof (fresh_not_allocated hp) as Hf. rewrite E in Hf.
      eapply lookup_weaken in Hq; [|exact Hhp]. congruence. }
  rewrite Hq1. fold v.
  destruct (decide (length v = shape0 qo)) as [Hn|Hn]; cbn [fst snd heap].
  - split; [split; discriminate|]. intros _ _. eexists. split; [done|].
    apply lookup_insert_eq.
  - split; [split; discriminate|]. intros _ Hn'. done.
Qed.

(** C5, as the code has it.  The adapter neither catches nor translates:
    an exception of the backend reaches the caller as it was raised,
    and every status without "optimal", known or unknown, gives the
    same plain [None]. *)
Theorem cvxopt_solve_qp_backend_failure_propagates :
  exists t c,
    trace r.2 = trace w ++ [(t, c)]
    /\ (forall e, qp t c = Raise e -> r.1 = Raise e)
    /\ (forall sol, qp t c = Return sol ->
          contains "optimal" (status sol) = false -> r.1 = Return None).
Proof.
  destruct one_call_trace as (t & c & hp & Htr & _ & _ & _ & Hr).
  exists t, c. split; [done|]. split.
  - intros e He. by rewrite Hr, He.
  - intros sol Hsol Hst. rewrite Hr, Hsol. unfold returned. by rewrite Hst.
Qed.

(** The table the backend reads during the call, and the table left
    after it, hold the caller's [verbose] flag under "show_progress". *)
Lemma show_progress_is_verbose :
  exists t c,
    trace r.2 = trace w ++ [(t, c)]
    /\ t !! "show_progress" = Some (PyBool verbose)
    /\ options r.2 !! "show_progress" = Some (PyBool verbose).
Proof.
  destruct one_call_trace as (t & c & hp & Htr & Ho & _ & Ht & _).
  exists t, c. rewrite Ho. split; [done|].
  pose proof (options_after_lookup verbose maxiters abstol reltol feastol
                refinement (options w)) as [Hs _].
  cbn zeta in Hs. rewrite <- Ht in Hs. done.
Qed.

(** C4, as the code has it.  Nothing is saved and nothing is put back:
    the table after the call is the table before it with [verbose]
    stored under "show_progress" and every tuning argument of true
    truth value stored under its key; the other keys are as before; and
    this is the very table the backend was given. *)
Theorem cvxopt_solve_qp_options_stay_written :
  let t := options r.2 in
  (exists c, trace r.2 = trace w ++ [(t, c)])
  /\ t !! "show_progress" = Some (PyBool verbose)
  /\ t !! "maxiters" = left_in_table (PyInt <$> maxiters) (options w !! "maxiters")
  /\ t !! "abstol" = left_in_table (PyFloat <$> abstol) (options w !! "abstol")
  /\ t !! "reltol" = left_in_table (PyFloat <$> reltol) (options w !! "reltol")
  /\ t !! "feastol" = left_in_table (PyFloat <$> feastol) (options w !! "feastol")
  /\ t !! "refinement"
     = left_in_table (PyInt <$> refinement) (options w !! "refinement")
  /\ forall k, k ∉ option_names -> t !! k = options w !! k.
Proof.
  destruct one_call_trace as (t & c & hp & Htr & Ho & _ & Ht & _).
  cbn zeta. rewrite Ho. split; [by exists c|].
  rewrite Ht. apply options_after_lookup.
Qed.

End Outcome.

(** C7. Loading the module stores [False] under "show_progress", and
    every call stores the caller's [verbose] flag there before the backend
    runs: the backend reads [verbose], and so does whoever looks at the
    table after the call.  A caller who does not pass [verbose] passes
    the default, [False]. *)
Theorem show_progress_follows_verbose
    f `{!BoxConversion f} qp P q G h A b lb ub solver initvals verbose
    maxiters abstol reltol feastol refinement w :
  (forall w0, options (module_load w0).2 !! "show_progress" = Some (PyBool false))
  /\ exists t c,
       trace (cvxopt_solve_qp f qp P q G h A b lb ub solver initvals verbose
                maxiters abstol reltol feastol refinement w).2
       = trace w ++ [(t, c)]
       /\ t !! "show_progress" = Some (PyBool verbose)
       /\ options (cvxopt_solve_qp f qp P q G h A b lb ub solver initvals
                     verbose maxiters abstol reltol feastol refinement w).2
          !! "show_progress" = Some (PyBool verbose).
Proof.
  split.
  - intros w0. cbn. apply lookup_insert_eq.
  - by apply show_progress_is_verbose.
Qed.

(** ** Incomplete pairs in the adapter *)

(** C10. Called without bounds and with one half of a constraint pair
    missing, the adapter raises nothing of its own: it calls the backend
    with that whole pair absent, and the call goes exactly as if the lone
    half had not been passed. *)
Theorem cvxopt_solve_qp_drops_incomplete_pair
    f qp P q G h A b solver initvals verbose maxiters abstol reltol feastol
    refinement w :
  is_None G <> is_None h \/ is_None A <> is_None b ->
  let r := cvxopt_solve_qp f qp P q G h A b None None solver initvals verbose
             maxiters abstol reltol feastol refinement w in
  r = cvxopt_solve_qp f qp P q (with_partner G h) (with_partner h G)
        (with_partner A b) (with_partner b A) None None solver initvals
        verbose maxiters abstol reltol feastol refinement w
  /\ exists t c,
       trace r.2 = trace w ++ [(t, c)]
       /\ (is_None G <> is_None h -> call_G c = None /\ call_h c = None)
       /\ (is_None A <> is_None b -> call_A c = None /\ call_b c = None).
Proof.
  intros _ r. subst r.
  rewrite !(cvxopt_solve_qp_run f qp _ _ _ _ _ _ None None _ _ _ _ _ _ _ _ w
              _ _ w eq_refl).
  cbn zeta.
  set (t := options_after _ _ _ _ _ _ _).
  assert (Hc : prepared_call (heap w) P q (with_partner G h) (with_partner h G)
                 (with_partner A b) (with_partner b A) solver initvals
               = prepared_call (heap w) P q G h A b solver initvals).
  { unfold prepared_call. f_equal;
      by destruct G, h, A, b. }
  rewrite Hc. split; [done|].
  set (c := prepared_call _ _ _ _ _ _ _ _ _).
  exists t, c. split.
  - destruct (qp t c); cbn [snd trace]; by rewrite ?returned_trace.
  - split; intros Hne.
    + destruct G, h; cbn in Hne; try done.
    + destruct A, b; cbn in Hne; try done.
Qed.

(** ** Caller-owned arrays *)

Lemma keeps_ret {A} (a : A) : keeps_arrays (mret a).
Proof. by intros w. Qed.

Lemma keeps_raise {A} (e : exn) : keeps_arrays (raise (A := A) e).
Proof. by intros w. Qed.

Lemma keeps_bind {A B} (m : Py A) (k : A -> Py B) :
  keeps_arrays m -> (forall a, keeps_arrays (k a)) -> keeps_arrays (m ≫= k).
Proof.
  intros Hm Hk w. unfold mbind, Py_bind. specialize (Hm w).
  destruct (m w) as [[a|e] w1]; [|done].
  etrans; [exact Hm|apply Hk].
Qed.

Lemma keeps_deref l : keeps_arrays (deref l).
Proof. by intros w. Qed.

Lemma keeps_alloc o : keeps_arrays (alloc o).
Proof. intros w. apply insert_subseteq, fresh_not_allocated. Qed.

Lemma keeps_set_option k v : keeps_arrays (set_option k v).
Proof. by intros w. Qed.

Lemma keeps_when c body : keeps_arrays body -> keeps_arrays (when c body).
Proof. destruct c; [done|]. intros _. apply keeps_ret. Qed.

Lemma keeps_if_truthy o body :
  (forall v, keeps_arrays (body v)) -> keeps_arrays (if_truthy o body).
Proof. destruct o; [|intros _; apply keeps_ret]. intros Hb. by apply keeps_when. Qed.

Lemma keeps_call_qp qp c : keeps_arrays (call_qp qp c).
Proof. by intros w. Qed.

Lemma to_cvxopt_world (M : loc) (w : World) : (to_cvxopt M w).2 = w.
Proof. by rewrite to_cvxopt_run. Qed.

Lemma keeps_to_cvxopt M : keeps_arrays (to_cvxopt M).
Proof. intros w. by rewrite to_cvxopt_world. Qed.

Lemma keeps_reshape a n : keeps_arrays (reshape a n).
Proof.
  intros w. rewrite reshape_run. cbn zeta.
  destruct (decide _); [apply keeps_alloc|apply keeps_raise].
Qed.

Create HintDb keeps.
#[global] Hint Resolve keeps_ret keeps_raise keeps_deref keeps_alloc
  keeps_set_option keeps_when keeps_if_truthy keeps_call_qp keeps_to_cvxopt
  keeps_reshape : keeps.

Lemma keeps_cvxopt_solve_qp
    f qp P q G h A b lb ub solver initvals verbose maxiters abstol reltol
    feastol refinement :
  (forall G h lb ub, keeps_arrays (f G h lb ub)) ->
  keeps_arrays (cvxopt_solve_qp f qp P q G h A b lb ub solver initvals verbose
                  maxiters abstol reltol feastol refinement).
Proof.
  intros Hf. unfold cvxopt_solve_qp, array.
  apply keeps_bind.
  { destruct (is_not_None lb || is_not_None ub); [apply Hf|apply keeps_ret]. }
  intros [G1 h1].
  do 8 (apply keeps_bind; [auto with keeps|intros ?]).
  apply keeps_bind.
  { destruct G1, h1; auto with keeps.
    do 2 (apply keeps_bind; [auto with keeps|intros ?]). auto with keeps. }
  intros [kwG kwh]. apply keeps_bind.
  { destruct A, b; auto with keeps.
    do 2 (apply keeps_bind; [auto with keeps|intros ?]). auto with keeps. }
  intros [kwA kwb]. apply keeps_bind.
  { destruct initvals; auto with keeps.
    apply keeps_bind; [auto with keeps|intros ?]. auto with keeps. }
  intros d. apply keeps_bind; [auto with keeps|intros sol].
  destruct (negb _); [auto with keeps|].
  do 3 (apply keeps_bind; [auto with keeps|intros ?]). auto with keeps.
Qed.

(** C8. Converting an array reads it and changes nothing, and a call of
    the adapter only adds new objects to the heap: every array that was
    there before the call, the caller's [P], [q], [G], [h], [A], [b],
    [lb], [ub] and [initvals] among them, is there after it with the
    value it had, provided the imported box conversion keeps the arrays
    too. *)
Theorem cvxopt_solve_qp_keeps_caller_arrays
    f qp P q G h A b lb ub solver initvals verbose maxiters abstol reltol
    feastol refinement w :
  (forall G h lb ub, keeps_arrays (f G h lb ub)) ->
  (forall M w0, (to_cvxopt M w0).2 = w0)
  /\ forall l o,
       heap w !! l = Some o ->
       heap (cvxopt_solve_qp f qp P q G h A b lb ub solver initvals verbose
               maxiters abstol reltol feastol refinement w).2 !! l = Some o.
Proof.
  intros Hf. split; [apply to_cvxopt_world|].
  intros l o Hl. eapply lookup_weaken; [exact Hl|].
  by apply keeps_cvxopt_solve_qp.
Qed.

(** ** Box bounds as inequality rows *)

Lemma triplets_app V rowi coli V' rowi' coli' :
  length V = length rowi -> length rowi = length coli ->
  triplets (V ++ V') (rowi ++ rowi') (coli ++ coli')
  = triplets V rowi coli ++ triplets V' rowi' coli'.
Proof.
  intros HVI HIJ. unfold triplets.
  rewrite (zip_with_app _ V V') by done.
  rewrite zip_with_app; [done|].
  rewrite length_zip_with_l_eq; congruence.
Qed.

Lemma foldl_add_at_skip i j acc (E : list (float * nat * nat)) :
  Forall (fun e => e.1.2 <> i) E -> foldl (add_at i j) acc E = acc.
Proof.
  induction 1 as [|e E He _ IH]; [done|]. cbn [foldl].
  unfold add_at at 2. apply Nat.eqb_neq in He. by rewrite He.
Qed.

Lemma triplets_rows (Q : nat -> Prop) V rowi coli :
  Forall Q rowi -> Forall (fun e => Q e.1.2) (triplets V rowi coli).
Proof.
  intros HI. revert V coli.
  induction HI as [|i rowi Hi _ IH]; intros [|v V] [|j coli]; try constructor; try done.
  apply IH.
Qed.

Lemma new_triplets_rows m rs : Forall (fun e => m <= e.1.2) (new_triplets m rs).
Proof. apply (triplets_rows (fun i => m <= i)), Forall_seq. lia. Qed.

Lemma foldl_new_triplets_below m rs i j acc :
  i < m -> foldl (add_at i j) acc (new_triplets m rs) = acc.
Proof.
  intros Hi. apply foldl_add_at_skip.
  eapply Forall_impl; [apply new_triplets_rows|]. cbn. lia.
Qed.

Lemma foldl_new_triplets_at m rs k r j acc :
  rs !! k = Some r ->
  foldl (add_at (m + k) j) acc (new_triplets m rs)
  = if Nat.eqb (var r) j then (acc + coeff r)%float else acc.
Proof.
  revert m k acc. induction rs as [|r0 rs IH]; intros m k acc Hk; [done|].
  change (new_triplets m (r0 :: rs))
    with ((coeff r0, m, var r0) :: new_triplets (S m) rs).
  cbn [foldl]. destruct k as [|k]; cbn in Hk.
  - injection Hk as ->. rewrite foldl_new_triplets_below by lia.
    unfold add_at. cbn [fst snd]. rewrite Nat.add_0_r, Nat.eqb_refl. done.
  - replace (m + S k) with (S m + k) by lia.
    rewrite <- (IH (S m) k acc Hk). f_equal.
    unfold add_at. cbn [fst snd].
    replace (Nat.eqb m (S m + k)) with false; [done|].
    symmetry. apply Nat.eqb_neq. lia.
Qed.

(** Stacking rows below a sparse matrix appends them to its rows. *)
Lemma sp_rows_vstack (s : csc_matrix) (rs : list box_row) :
  length (csc_data s) = length (csc_row s) ->
  length (csc_row s) = length (csc_col s) ->
  Forall (fun i => i < (csc_shape s).1) (csc_row s) ->
  Forall (fun r => width r = (csc_shape s).2
                   /\ (0 + coeff r)%float = coeff r) rs ->
  array_rows (vstack (Sparse s) rs) = array_rows (Sparse s) ++ (row_entries <$> rs).
Proof.
  intros HVI HIJ Hrow Hrs.
  destruct s as [[m n] V rowi coli]. cbn [csc_shape csc_data csc_row csc_col fst snd] in *.
  cbn [vstack array_rows csc_shape csc_data csc_row csc_col fst snd].
  unfold sp_rows at 1. cbn [fst snd].
  rewrite seq_app, fmap_app. f_equal.
  - apply list_fmap_ext. intros k i Hi. apply lookup_seq in Hi as [-> Hk].
    apply list_fmap_ext. intros _ j _. unfold sp_entry.
    rewrite triplets_app, foldl_app by done.
    by apply foldl_new_triplets_below.
  - apply list_eq. intros k. rewrite !list_lookup_fmap.
    destruct (rs !! k) as [r|] eqn:Hk.
    + rewrite lookup_seq_lt by (by eapply lookup_lt_Some). cbn [fmap option_fmap option_map].
      f_equal. rewrite Forall_lookup in Hrs. destruct (Hrs k r Hk) as [Hw Hc].
      unfold row_entries, basis_row. rewrite Hw.
      apply list_fmap_ext. intros _ j _. unfold sp_entry.
      rewrite triplets_app, foldl_app by done.
      rewrite (foldl_add_at_skip _ _ _ (triplets V rowi coli)).
      * fold (new_triplets m rs). rewrite Nat.add_0_l.
        rewrite (foldl_new_triplets_at m rs k r j _ Hk), Hc.
        by rewrite Nat.eqb_sym.
      * eapply Forall_impl; [apply (triplets_rows (fun i => i < m)), Hrow|].
        cbn. lia.
    + rewrite lookup_seq_ge by (by apply lookup_ge_None). done.
Qed.

Lemma concat_column (v : list float) : concat (rows (column v)) = v.
Proof. cbn. induction v as [|a v IH]; [done|]. cbn. by rewrite IH. Qed.

Lemma cvx_rows_converted n o : is_matrix n o -> cvx_rows (converted o) = array_rows o.
Proof. by destruct o. Qed.

Lemma rhs_converted o : is_vector o -> concat (cvx_rows (converted o)) = ravel o.
Proof. destruct o; try done. intros _. apply concat_column. Qed.

Lemma box_rows_fit n (lbo ubo : option pyobj) :
  from_option (fun o => length (ravel o) = n) True lbo ->
  from_option (fun o => length (ravel o) = n) True ubo ->
  Forall (fun r => width r = n /\ (0 + coeff r)%float = coeff r) (box_rows lbo ubo).
Proof.
  intros Hl Hu. unfold box_rows. apply Forall_app. split.
  - destruct lbo as [o|]; [|constructor]. cbn in *.
    unfold lower_rows. apply Forall_fmap, Forall_forall. intros p _. by cbn.
  - destruct ubo as [o|]; [|constructor]. cbn in *.
    unfold upper_rows. apply Forall_fmap, Forall_forall. intros p _. by cbn.
Qed.

Lemma rows_stack_G n nn (Go : option pyobj) (rs : list box_row) :
  from_option (is_matrix n) True Go ->
  Forall (fun r => width r = n /\ (0 + coeff r)%float = coeff r) rs ->
  rows_passed (converted <$> stack_G Go nn rs)
  = from_option array_rows [] Go ++ (row_entries <$> rs).
Proof.
  intros HG Hrs. destruct Go as [[v|d|s]|]; cbn in HG.
  - done.
  - done.
  - destruct HG as (H1 & H2 & H3 & H4). cbn [stack_G fmap option_fmap option_map].
    unfold rows_passed. cbn [from_option].
    rewrite <- sp_rows_vstack; [done..|]. by rewrite H4.
  - cbn. by destruct rs.
Qed.

Lemma rhs_stack_h (ho : option pyobj) (rs : list box_row) :
  rhs_passed (converted <$> stack_h ho rs)
  = from_option ravel [] ho ++ (rhs <$> rs).
Proof.
  destruct ho as [o|]; cbn.
  - apply concat_column.
  - destruct rs; [done|]. apply (concat_column (rhs <$> _ :: _)).
Qed.

Lemma stack_paired (Go ho : option pyobj) nn rs :
  is_None Go = is_None ho ->
  is_None (stack_G Go nn rs) = is_None (stack_h ho rs).
Proof. destruct Go, ho; try done. intros _. by destruct rs. Qed.

(** The keyword pair built from what the box conversion returned. *)
Lemma kw_pair_after_box (G' h' : option pyobj) (hp : gmap loc pyobj) :
  is_None G' = is_None h' ->
  kw_pair (heap_with h' (heap_with G' hp)) (name_of G' hp)
          (name_of h' (heap_with G' hp))
  = (converted <$> G', converted <$> h').
Proof.
  destruct G' as [og|], h' as [oh|]; try done. intros _.
  cbn [heap_with name_of kw_pair fmap option_fmap option_map].
  set (a := fresh (dom hp)). set (hpa := <[a := og]> hp).
  rewrite lookup_total_insert_eq, lookup_total_insert_ne.
  - unfold hpa. by rewrite lookup_total_insert_eq.
  - intros E. pose proof (fresh_not_allocated hpa) as Hf.
    rewrite E in Hf. unfold hpa in Hf at 1. by rewrite lookup_insert_eq in Hf.
Qed.

Lemma kw_pair_paired (hp : gmap loc pyobj) (G h : option loc) :
  is_None G = is_None h ->
  kw_pair hp G h = (converted <$> ((fun l => hp !!! l) <$> G),
                    converted <$> ((fun l => hp !!! l) <$> h)).
Proof. by destruct G, h. Qed.

Lemma lower_rows_entries (v : list float) :
  row_entries <$> lower_rows v
  = (fun p => basis_row (length v) p.1 (-1)%float) <$> finite_bounds v.
Proof. unfold lower_rows. by rewrite <- list_fmap_compose. Qed.

Lemma upper_rows_entries (v : list float) :
  row_entries <$> upper_rows v
  = (fun p => basis_row (length v) p.1 1%float) <$> finite_bounds v.
Proof. unfold upper_rows. by rewrite <- list_fmap_compose. Qed.

Lemma lower_rows_rhs (v : list float) :
  rhs <$> lower_rows v = (fun p => (- p.2)%float) <$> finite_bounds v.
Proof. unfold lower_rows. by rewrite <- list_fmap_compose. Qed.

Lemma upper_rows_rhs (v : list float) :
  rhs <$> upper_rows v = snd <$> finite_bounds v.
Proof. unfold upper_rows. by rewrite <- list_fmap_compose. Qed.

(** The generated rows and right-hand sides, written out over the bound
    vectors of an [n]-variable problem. *)
Lemma box_rows_written_out (w : World) (lb ub : option loc) (n : nat) :
  let obj := fmap (M := option) (fun l => heap w !!! l) in
  from_option (fun l => is_vector (heap w !!! l)
                        /\ length (ravel (heap w !!! l)) = n) True lb ->
  from_option (fun l => is_vector (heap w !!! l)
                        /\ length (ravel (heap w !!! l)) = n) True ub ->
  row_entries <$> box_rows (obj lb) (obj ub)
  = ((fun p => basis_row n p.1 (-1)%float) <$> finite_bounds (vec_at w lb))
    ++ ((fun p => basis_row n p.1 1%float) <$> finite_bounds (vec_at w ub))
  /\ rhs <$> box_rows (obj lb) (obj ub)
     = ((fun p => (- p.2)%float) <$> finite_bounds (vec_at w lb))
       ++ (snd <$> finite_bounds (vec_at w ub)).
Proof.
  intros obj Hl Hu. unfold box_rows. rewrite !fmap_app.
  destruct lb as [l|], ub as [u|]; cbn in *;
    rewrite ?lower_rows_entries, ?upper_rows_entries, ?lower_rows_rhs,
      ?upper_rows_rhs;
    repeat match goal with H : _ /\ _ = n |- _ => destruct H as [_ ->] end;
    done.
Qed.

(** C3. With the box conversion of the specification in place, the
    inequality rows the backend receives are the rows of the caller's [G],
    then one row [-e_i] for each finite [lb_i] in index order, then one
    row [e_i] for each finite [ub_i] in index order; the right-hand sides
    are the entries of [h], then [-lb_i], then [ub_i] for the same
    components.  Components that are infinite or missing give no row. *)
Theorem cvxopt_solve_qp_box_rows
    qp P q G h A b lb ub solver initvals verbose maxiters abstol reltol
    feastol refinement w n :
  box_problem w G h lb ub n ->
  let r := cvxopt_solve_qp canonicalize_box qp P q G h A b lb ub solver
             initvals verbose maxiters abstol reltol feastol refinement w in
  let lbv := vec_at w lb in
  let ubv := vec_at w ub in
  exists t c,
    trace r.2 = trace w ++ [(t, c)]
    /\ rows_passed (call_G c)
       = rows_at w G
         ++ ((fun p => basis_row n p.1 (-1)%float) <$> finite_bounds lbv)
         ++ ((fun p => basis_row n p.1 1%float) <$> finite_bounds ubv)
    /\ rhs_passed (call_h c)
       = vec_at w h
         ++ ((fun p => (- p.2)%float) <$> finite_bounds lbv)
         ++ (snd <$> finite_bounds ubv).
Proof.
  intros (Hpair & HG & Hh & Hlb & Hub) r lbv ubv.
  destruct (box_rows_written_out w lb ub n Hlb Hub) as [Hrows Hrhs].
  destruct w as [t0 hp tr0]. cbn [heap] in *.
  set (obj := fmap (M := option) (fun l => hp !!! l)) in *.
  set (rs := box_rows (obj lb) (obj ub)) in *.
  assert (Hfit : Forall (fun r => width r = n /\ (0 + coeff r)%float = coeff r) rs).
  { apply box_rows_fit; [by destruct lb; cbn in *; tauto
                        |by destruct ub; cbn in *; tauto]. }
  assert (HGo : from_option (is_matrix n) True (obj G)) by (by destruct G).
  assert (Hobj : is_None (obj G) = is_None (obj h)) by (by destruct G, h).
  assert (Hrun : exists G1 h1 hp1,
             box_step canonicalize_box G h lb ub (mkWorld t0 hp tr0)
             = (Return (G1, h1), mkWorld t0 hp1 tr0)
             /\ rows_passed (kw_pair hp1 G1 h1).1
                = from_option array_rows [] (obj G) ++ (row_entries <$> rs)
             /\ rhs_passed (kw_pair hp1 G1 h1).2
                = from_option ravel [] (obj h) ++ (rhs <$> rs)).
  { unfold box_step. destruct (is_not_None lb || is_not_None ub) eqn:Hb.
    - eexists _, _, _. split; [apply canonicalize_box_run|]. cbn zeta.
      fold obj. fold rs. rewrite kw_pair_after_box by by apply stack_paired.
      cbn [fst snd]. split; [by eapply rows_stack_G|apply rhs_stack_h].
    - exists G, h, hp. split; [done|].
      assert (rs = []) as -> by (subst rs; by destruct lb, ub).
      rewrite kw_pair_paired by done. cbn [fst snd fmap list_fmap].
      rewrite !app_nil_r. fold obj. split.
      + destruct G as [g|]; [|done]. cbn in *. by eapply cvx_rows_converted.
      + destruct h as [l|]; [|done]. cbn in *. by apply rhs_converted. }
  destruct Hrun as (G1 & h1 & hp1 & Hbox & HGr & Hhr).
  subst r.
  rewrite (cvxopt_solve_qp_run _ _ _ _ _ _ _ _ _ _ _ _ _ _ _ _ _ _ _ _ _ _ Hbox).
  cbn zeta. cbn [options heap trace].
  set (t := options_after _ _ _ _ _ _ _).
  set (c := prepared_call _ _ _ _ _ _ _ _ _).
  exists t, c. split.
  { destruct (qp t c); cbn [snd trace]; by rewrite ?returned_trace. }
  subst c. cbn [prepared_call call_G call_h].
  rewrite HGr, Hhr.
  rewrite Hrows, Hrhs. unfold rows_at, vec_at. cbn [heap].
  by destruct G, h.
Qed.

(** ** The theorems at work on the sample problem *)

(** The example of the specification: [lb = [-1, None]], [ub = [None, 2]]
    and no [G], [h] give two rows, [-x0 <= 1] and then [x1 <= 2]. *)
Example box_rows_of_sample_bounds :
  (fun e => (call_G e.2, call_h e.2))
    <$> trace (sample_solve (sample_qp "optimal") None None (Some sample_lb)
                 (Some sample_ub) false None).2
  = [(Some (matrix (Dense2 2 [[-1; 0]; [0; 1]]%float)),
      Some (matrix (column [1; 2]%float)))].
Proof. vm_compute. reflexivity. Qed.

Lemma cvxopt_solve_qp_none_iff_not_optimal_witness :
  heap sample_world !! sample_q = Some (Vector [0; 0]%float)
  /\ exists l,
       (sample_solve (sample_qp "optimal") None None None None false None).1
       = Return (Some l)
       /\ heap (sample_solve (sample_qp "optimal") None None None None false
                  None).2 !! l = Some (Vector [0.5; 0.5]%float).
Proof.
  split; [reflexivity|].
  destruct (cvxopt_solve_qp_none_iff_not_optimal canonicalize_box
              (sample_qp "optimal") sample_P sample_q None None None None
              None None None None false None None None None None sample_world
              (Vector [0; 0]%float) eq_refl) as (t & c & _ & H).
  exact (proj2 (H _ eq_refl) eq_refl eq_refl).
Defined.

(** A backend point of the wrong size makes [reshape] raise, as NumPy
    does. *)
Example reshape_of_oversized_point :
  (sample_solve oversized_qp None None None None false None).1
  = Raise (ValueError "cannot reshape array of size 3 into shape (2,)").
Proof. vm_compute. reflexivity. Qed.

Lemma cvxopt_solve_qp_box_rows_witness :
  box_problem sample_world (Some sample_Gs) (Some sample_h) (Some sample_lb)
    (Some sample_ub) 2
  /\ exists t c,
       trace (sample_solve (sample_qp "optimal") (Some sample_Gs)
                (Some sample_h) (Some sample_lb) (Some sample_ub) false None).2
       = [(t, c)]
       /\ rows_passed (call_G c) = [[-1; -1]; [-1; 0]; [0; 1]]%float
       /\ rhs_passed (call_h c) = [-1; 1; 2]%float.
Proof.
  assert (Hbp : box_problem sample_world (Some sample_Gs) (Some sample_h)
                  (Some sample_lb) (Some sample_ub) 2).
  { vm_compute. repeat split; repeat constructor. }
  split; [exact Hbp|].
  exact (cvxopt_solve_qp_box_rows (sample_qp "optimal") sample_P sample_q
           (Some sample_Gs) (Some sample_h) None None (Some sample_lb)
           (Some sample_ub) None None false None None None None None
           sample_world 2 Hbp).
Defined.

(** C4 fails as stated: a verbose call with [maxiters=50] leaves the
    option table different from what it was. *)
Lemma option_table_not_restored :
  options (sample_solve (sample_qp "optimal") None None None None true
             (Some 50%Z)).2
  <> options sample_world.
Proof.
  intros E. apply (f_equal (fun t => t !! "show_progress")) in E.
  vm_compute in E. discriminate E.
Qed.

Lemma cvxopt_solve_qp_options_stay_written_witness :
  let t := options (sample_solve (sample_qp "optimal") None None None None
                      true (Some 50%Z)).2 in
  t !! "show_progress" = Some (PyBool true)
  /\ t !! "maxiters" = Some (PyInt 50)
  /\ t !! "abstol" = None.
Proof.
  destruct (cvxopt_solve_qp_options_stay_written canonicalize_box
              (sample_qp "optimal") sample_P sample_q None None None None
              None None None None true (Some 50%Z) None None None None
              sample_world) as (_ & Hs & Hm & Ha & _).
  exact (conj Hs (conj Hm Ha)).
Defined.

(** C5 fails as stated: an exception raised by the backend comes out of
    the adapter as it is, and an unknown status gives the same [None] as
    a reported infeasibility. *)
Lemma backend_exception_reaches_caller :
  (sample_solve failing_qp None None None None false None).1
  = Raise (ValueError "Rank(A) < p or Rank([P; A; G]) < n")
  /\ (sample_solve (sample_qp "no such status") None None None None false
        None).1 = Return None
  /\ (sample_solve (sample_qp "primal infeasible") None None None None false
        None).1 = Return None.
Proof. vm_compute. done. Qed.

Lemma cvxopt_solve_qp_backend_failure_propagates_witness :
  (sample_solve failing_qp (Some sample_G) (Some sample_h) None None false
     None).1
  = Raise (ValueError "Rank(A) < p or Rank([P; A; G]) < n").
Proof.
  destruct (cvxopt_solve_qp_backend_failure_propagates canonicalize_box
              failing_qp sample_P sample_q (Some sample_G) (Some sample_h)
              None None None None None None false None None None None None
              sample_world) as (t & c & _ & H & _).
  exact (H _ eq_refl).
Defined.

(** C6 fails on the code: a tuning argument whose value is zero is
    skipped by the truth-value tests of lines 176 to 185.  After a call
    with [refinement=2], a call with [abstol=0.0] and [refinement=0]
    stores neither: the backend reads no "abstol" at all and still reads
    the 2 of the earlier call under "refinement", and so does whoever
    looks at the table afterwards. *)
Theorem zero_valued_options_not_forwarded :
  let r := cvxopt_solve_qp canonicalize_box (sample_qp "optimal") sample_P
             sample_q None None None None None None None None false None
             (Some 0%float) None None (Some 0%Z) earlier_world in
  (fun e => (e.1 !! "abstol", e.1 !! "refinement")) <$> last (trace r.2)
  = Some (None, Some (PyInt 2))
  /\ options r.2 !! "abstol" = None
  /\ options r.2 !! "refinement" = Some (PyInt 2).
Proof. vm_compute. done. Qed.

Lemma show_progress_follows_verbose_witness :
  exists t c,
    trace (sample_solve (sample_qp "optimal") None None (Some sample_lb) None
             true None).2 = [(t, c)]
    /\ t !! "show_progress" = Some (PyBool true).
Proof.
  destruct (show_progress_follows_verbose canonicalize_box
              (sample_qp "optimal") sample_P sample_q None None None None
              (Some sample_lb) None None None true None None None None None
              sample_world) as (_ & t & c & Ht & Hs & _).
  exists t, c. exact (conj Ht Hs).
Defined.

Lemma cvxopt_solve_qp_keeps_caller_arrays_witness :
  heap sample_world !! sample_lb = Some (Vector [-1; nan]%float)
  /\ heap (sample_solve (sample_qp "optimal") (Some sample_G) (Some sample_h)
             (Some sample_lb) (Some sample_ub) false None).2 !! sample_lb
     = Some (Vector [-1; nan]%float).
Proof.
  split; [reflexivity|].
  apply (cvxopt_solve_qp_keeps_caller_arrays canonicalize_box
           (sample_qp "optimal") sample_P sample_q (Some sample_G)
           (Some sample_h) None None (Some sample_lb) (Some sample_ub) None
           None false None None None None None sample_world).
  - intros G h lb ub w. apply box_keeps.
  - reflexivity.
Defined.

Lemma check_problem_constraints_presence_only_witness :
  (check_problem_constraints (Some sample_G) None None None sample_world).1
  = (check_problem_constraints (Some sample_P) None None None earlier_world).1.
Proof.
  apply (check_problem_constraints_presence_only
           (Some sample_G) None None None (Some sample_P) None None None
           sample_world earlier_world); reflexivity.
Defined.

Lemma cvxopt_solve_qp_drops_incomplete_pair_witness :
  sample_solve (sample_qp "optimal") (Some sample_G) None None None false None
  = sample_solve (sample_qp "optimal") None None None None false None.
Proof.
  apply (cvxopt_solve_qp_drops_incomplete_pair canonicalize_box
           (sample_qp "optimal") sample_P sample_q (Some sample_G) None None
           None None None false None None None None None sample_world).
  left. discriminate.
Defined.


(** ** More on the validator *)

(** X1. With one half of the inequality pair missing the validator raises
    a [ValueError] about the inequality pair, whatever [A] and [b] are;
    the message reads "missing h" when it is [G] that is absent, and
    "missing G" when it is [h]. *)
Theorem check_problem_constraints_inequality_first
    (G h A b : option loc) (w : World) :
  is_None G <> is_None h ->
  (check_problem_constraints G h A b w).1
  = Raise (ValueError (if is_None G
                       then "incomplete inequality constraint (missing h)"
                       else "incomplete inequality constraint (missing G)")).
Proof. destruct G, h, A, b; cbn; intros Hne; done. Qed.

Lemma check_problem_constraints_inequality_first_witness :
  (check_problem_constraints None (Some sample_h) (Some sample_G) None
     sample_world).1
  = Raise (ValueError "incomplete inequality constraint (missing h)").
Proof.
  apply (check_problem_constraints_inequality_first None (Some sample_h)
           (Some sample_G) None sample_world).
  discriminate.
Defined.

(** X2. The equality pair is looked at only when the inequality pair is
    complete or absent; then a missing half raises a [ValueError] whose
    message reads "missing b" when it is [A] that is absent, and
    "missing A" when it is [b]. *)
Theorem check_problem_constraints_equality_second
    (G h A b : option loc) (w : World) :
  is_None G = is_None h ->
  is_None A <> is_None b ->
  (check_problem_constraints G h A b w).1
  = Raise (ValueError (if is_None A
                       then "incomplete equality constraint (missing b)"
                       else "incomplete equality constraint (missing A)")).
Proof. destruct G, h, A, b; cbn; intros He Hne; done. Qed.

Lemma check_problem_constraints_equality_second_witness :
  (check_problem_constraints (Some sample_G) (Some sample_h) (Some sample_P)
     None sample_world).1
  = Raise (ValueError "incomplete equality constraint (missing A)").
Proof.
  apply (check_problem_constraints_equality_second (Some sample_G)
           (Some sample_h) (Some sample_P) None sample_world);
    [reflexivity|discriminate].
Defined.

(** ** More on the adapter *)

(** X3. Without [lb] and [ub] the imported conversion is not called: the
    call goes the same way whatever that conversion is. *)
Theorem cvxopt_solve_qp_without_bounds_skips_conversion
    f1 f2 qp P q G h A b solver initvals verbose maxiters abstol reltol
    feastol refinement w :
  cvxopt_solve_qp f1 qp P q G h A b None None solver initvals verbose
    maxiters abstol reltol feastol refinement w
  = cvxopt_solve_qp f2 qp P q G h A b None None solver initvals verbose
      maxiters abstol reltol feastol refinement w.
Proof.
  rewrite (cvxopt_solve_qp_run f1 qp _ _ _ _ _ _ None None _ _ _ _ _ _ _ _ w
             _ _ w eq_refl).
  by rewrite (cvxopt_solve_qp_run f2 qp _ _ _ _ _ _ None None _ _ _ _ _ _ _ _
                w _ _ w eq_refl).
Qed.

(** X4. For a call without bounds, the validator accepts [G], [h], [A],
    [b] exactly when the adapter hands each of the four to the backend if
    and only if the caller gave it. *)
Theorem validator_accepts_iff_nothing_dropped
    f qp P q G h A b solver initvals verbose maxiters abstol reltol feastol
    refinement w :
  exists t c,
    trace (cvxopt_solve_qp f qp P q G h A b None None solver initvals verbose
             maxiters abstol reltol feastol refinement w).2
    = trace w ++ [(t, c)]
    /\ ((check_problem_constraints G h A b w).1 = Return tt
        <-> is_None (call_G c) = is_None G /\ is_None (call_h c) = is_None h
            /\ is_None (call_A c) = is_None A /\ is_None (call_b c) = is_None b).
Proof.
  rewrite (cvxopt_solve_qp_run f qp _ _ _ _ _ _ None None _ _ _ _ _ _ _ _ w
             _ _ w eq_refl).
  cbn zeta. eexists _, _. split.
  - destruct (qp _ _); cbn [snd trace]; by rewrite ?returned_trace.
  - destruct G, h, A, b; cbn; split; try done; intros (? & ? & ? & ?); done.
Qed.

Lemma lookup_total_live (hp hp' : gmap loc pyobj) (l : loc) :
  hp ⊆ hp' -> is_Some (hp !! l) -> hp' !!! l = hp !!! l.
Proof.
  intros Hsub [o Ho]. rewrite (lookup_total_correct hp l o Ho).
  apply lookup_total_correct. by eapply lookup_weaken.
Qed.

(** The call the adapter makes, with its arguments in view. *)
Lemma cvxopt_solve_qp_prepared f `{!BoxConversion f} qp P q G h A b lb ub
    solver initvals verbose maxiters abstol reltol feastol refinement w :
  exists G1 h1 hp,
    heap w ⊆ hp /\
    let t := options_after verbose maxiters abstol reltol feastol refinement
               (options w) in
    let c := prepared_call hp P q G1 h1 A b solver initvals in
    trace (cvxopt_solve_qp f qp P q G h A b lb ub solver initvals verbose
             maxiters abstol reltol feastol refinement w).2
    = trace w ++ [(t, c)].
Proof.
  destruct (box_step_run f G h lb ub w) as (G1 & h1 & w1 & Hr & Ho & Ht & Hh).
  exists G1, h1, (heap w1). split; [done|].
  rewrite (cvxopt_solve_qp_run _ _ _ _ _ _ _ _ _ _ _ _ _ _ _ _ _ _ _ _ _ _ Hr).
  cbn zeta. rewrite Ho, Ht.
  destruct (qp _ _); cbn [snd trace]; by rewrite ?returned_trace.
Qed.

(** X5. Whatever the box conversion does with [G] and [h], the backend
    receives the caller's [P] and [q] converted, the equality pair as the
    caller gave it (both halves or none), the [solver] name unchanged, and
    the warm start, if any, as a dictionary with the single key "x". *)
Theorem cvxopt_solve_qp_passes_the_rest_unchanged
    f `{!BoxConversion f} qp P q G h A b lb ub solver initvals verbose
    maxiters abstol reltol feastol refinement w :
  live w P -> live w q -> live_opt w A -> live_opt w b ->
  live_opt w initvals ->
  exists t c,
    trace (cvxopt_solve_qp f qp P q G h A b lb ub solver initvals verbose
             maxiters abstol reltol feastol refinement w).2
    = trace w ++ [(t, c)]
    /\ call_P c = converted (heap w !!! P)
    /\ call_q c = converted (heap w !!! q)
    /\ (call_A c, call_b c) = kw_pair (heap w) A b
    /\ call_solver c = solver
    /\ call_initvals c
       = (fun i => {[ "x" := converted (heap w !!! i) ]}) <$> initvals.
Proof.
  intros HP Hq HA Hb Hi.
  destruct (cvxopt_solve_qp_prepared f qp P q G h A b lb ub solver initvals
              verbose maxiters abstol reltol feastol refinement w)
    as (G1 & h1 & hp & Hsub & Htr).
  cbn zeta in Htr. eexists _, _. split; [exact Htr|].
  cbn [prepared_call call_P call_q call_A call_b call_solver call_initvals].
  rewrite !(lookup_total_live _ _ _ Hsub) by done.
  repeat split.
  - destruct A as [a|], b as [bb|]; try done. cbn in HA, Hb. cbn.
    by rewrite !(lookup_total_live _ _ _ Hsub).
  - destruct initvals as [i|]; [|done]. cbn in Hi. cbn.
    by rewrite (lookup_total_live _ _ _ Hsub).
Qed.

Lemma cvxopt_solve_qp_passes_the_rest_unchanged_witness :
  exists t c,
    trace (cvxopt_solve_qp canonicalize_box (sample_qp "optimal") sample_P
             sample_q None None (Some sample_G) (Some sample_h)
             (Some sample_lb) None (Some "mosek") (Some sample_q) false None
             None None None None sample_world).2
    = [(t, c)]
    /\ call_P c = matrix (Dense2 2 [[1; 0]; [0; 1]]%float)
    /\ call_q c = matrix (column [0; 0]%float)
    /\ (call_A c, call_b c)
       = (Some (matrix (Dense2 2 [[-1; -1]]%float)),
          Some (matrix (column [-1]%float)))
    /\ call_solver c = Some "mosek"
    /\ call_initvals c = Some {[ "x" := matrix (column [0; 0]%float) ]}.
Proof.
  apply (cvxopt_solve_qp_passes_the_rest_unchanged canonicalize_box
           (sample_qp "optimal") sample_P sample_q None None (Some sample_G)
           (Some sample_h) (Some sample_lb) None (Some "mosek") (Some sample_q)
           false None None None None None sample_world);
    vm_compute; eauto.
Defined.

(** X6. The array a call returns is a new object: its name referred to
    nothing before the call, so it is none of the caller's arrays, and it
    is one-dimensional. *)
Theorem cvxopt_solve_qp_returns_new_array
    f `{!BoxConversion f} qp P q G h A b lb ub solver initvals verbose
    maxiters abstol reltol feastol refinement w l :
  (cvxopt_solve_qp f qp P q G h A b lb ub solver initvals verbose maxiters
     abstol reltol feastol refinement w).1 = Return (Some l) ->
  heap w !! l = None
  /\ exists v,
       heap (cvxopt_solve_qp f qp P q G h A b lb ub solver initvals verbose
               maxiters abstol reltol feastol refinement w).2 !! l
       = Some (Vector v).
Proof.
  destruct (one_call_trace f qp P q G h A b lb ub solver initvals verbose
              maxiters abstol reltol feastol refinement w)
    as (t & c & hp & _ & _ & Hhp & _ & Hr).
  rewrite Hr. destruct (qp t c) as [sol|e]; [|discriminate].
  unfold returned. destruct (contains _ _); [|discriminate]. cbn zeta.
  destruct (decide _); [|discriminate]. cbn [fst snd heap].
  intros [= <-]. split.
  - eapply lookup_weaken_None; [apply fresh_not_allocated|].
    etrans; [exact Hhp|]. apply insert_subseteq, fresh_not_allocated.
  - eexists. apply lookup_insert_eq.
Qed.

Lemma cvxopt_solve_qp_returns_new_array_witness :
  heap sample_world !! 9%positive = None
  /\ exists v,
       heap (sample_solve (sample_qp "optimal") None None None None false
               None).2 !! 9%positive = Some (Vector v).
Proof.
  apply (cvxopt_solve_qp_returns_new_array canonicalize_box
           (sample_qp "optimal") sample_P sample_q None None None None None
           None None None false None None None None None sample_world).
  vm_compute. reflexivity.
Defined.

(** X7. When the backend reports an optimal status with a point that has
    not as many entries as [q] has, the adapter raises the [ValueError]
    of [reshape] instead of returning. *)
Theorem cvxopt_solve_qp_wrong_size_raises
    f `{!BoxConversion f} qp P q G h A b lb ub solver initvals verbose
    maxiters abstol reltol feastol refinement w qo :
  heap w !! q = Some qo ->
  exists t c,
    trace (cvxopt_solve_qp f qp P q G h A b lb ub solver initvals verbose
             maxiters abstol reltol feastol refinement w).2
    = trace w ++ [(t, c)] /\
    forall sol, qp t c = Return sol ->
      contains "optimal" (status sol) = true ->
      length (concat (rows (x sol))) <> shape0 qo ->
      (cvxopt_solve_qp f qp P q G h A b lb ub solver initvals verbose
         maxiters abstol reltol feastol refinement w).1
      = Raise (ValueError ("cannot reshape array of size "
                             +:+ pretty (length (concat (rows (x sol))))
                             +:+ " into shape (" +:+ pretty (shape0 qo)
                             +:+ ",)")).
Proof.
  intros Hq.
  destruct (one_call_trace f qp P q G h A b lb ub solver initvals verbose
              maxiters abstol reltol feastol refinement w)
    as (t & c & hp & Htr & _ & Hhp & _ & Hr).
  exists t, c. split; [done|]. intros sol Hsol Hst Hn.
  rewrite Hr, Hsol. unfold returned. rewrite Hst. cbn zeta.
  assert (Hq1 : <[fresh (dom hp) := Dense (x sol)]> hp !!! q = qo).
  { apply lookup_total_correct. rewrite lookup_insert_ne.
    - by eapply lookup_weaken.
    - intros E. pose proof (fresh_not_allocated hp) as Hf. rewrite E in Hf.
      eapply lookup_weaken in Hq; [|exact Hhp]. congruence. }
  rewrite Hq1. by destruct (decide _).
Qed.

Lemma cvxopt_solve_qp_wrong_size_raises_witness :
  (sample_solve oversized_qp (Some sample_G) (Some sample_h) None None false
     None).1
  = Raise (ValueError "cannot reshape array of size 3 into shape (2,)").
Proof.
  destruct (cvxopt_solve_qp_wrong_size_raises canonicalize_box oversized_qp
              sample_P sample_q (Some sample_G) (Some sample_h) None None None
              None None None false None None None None None sample_world
              (Vector [0; 0]%float) eq_refl) as (t & c & _ & H).
  refine (H _ eq_refl eq_refl _). vm_compute. discriminate.
Defined.

(** ** Calls in a row *)

Lemma options_after_unset (verbose : bool) (t : gmap string pyval) (k : string) :
  k <> "show_progress" ->
  options_after verbose None None None None None t !! k = t !! k.
Proof. intros Hk. cbn. by rewrite lookup_insert_ne. Qed.

(** X8. Tuning options outlive the call that set them: a later call that
    passes none of the five runs the backend under the "maxiters",
    "abstol", "reltol", "feastol" and "refinement" the earlier call ran it
    under, and with every other entry but "show_progress" as it was. *)
Theorem tuning_options_carry_over
    f `{!BoxConversion f} qp1 P1 q1 G1 h1 A1 b1 lb1 ub1 solver1 initvals1
    verbose1 maxiters abstol reltol feastol refinement
    qp2 P2 q2 G2 h2 A2 b2 lb2 ub2 solver2 initvals2 verbose2 w :
  let w1 := (cvxopt_solve_qp f qp1 P1 q1 G1 h1 A1 b1 lb1 ub1 solver1
               initvals1 verbose1 maxiters abstol reltol feastol refinement
               w).2 in
  let r2 := cvxopt_solve_qp f qp2 P2 q2 G2 h2 A2 b2 lb2 ub2 solver2 initvals2
              verbose2 None None None None None w1 in
  exists t1 c1 t2 c2,
    trace r2.2 = trace w ++ [(t1, c1); (t2, c2)]
    /\ forall k, k <> "show_progress" -> t2 !! k = t1 !! k.
Proof.
  intros w1 r2.
  destruct (one_call_trace f qp1 P1 q1 G1 h1 A1 b1 lb1 ub1 solver1 initvals1
              verbose1 maxiters abstol reltol feastol refinement w)
    as (t1 & c1 & hp1 & Htr1 & Ho1 & _ & _ & _).
  destruct (one_call_trace f qp2 P2 q2 G2 h2 A2 b2 lb2 ub2 solver2 initvals2
              verbose2 None None None None None w1)
    as (t2 & c2 & hp2 & Htr2 & _ & _ & Ht2 & _).
  exists t1, c1, t2, c2. fold r2 in Htr2. split.
  - rewrite Htr2. unfold w1. rewrite Htr1, <- app_assoc. done.
  - intros k Hk. rewrite Ht2. unfold w1. rewrite Ho1.
    by apply options_after_unset.
Qed.

Lemma tuning_options_carry_over_witness :
  exists t1 c1 t2 c2,
    trace (cvxopt_solve_qp canonicalize_box (sample_qp "optimal") sample_P
             sample_q None None None None None None None None false None None
             None None None
             (sample_solve (sample_qp "optimal") None None None None true
                (Some 50%Z)).2).2
    = trace sample_world ++ [(t1, c1); (t2, c2)]
    /\ forall k, k <> "show_progress" -> t2 !! k = t1 !! k.
Proof.
  exact (tuning_options_carry_over canonicalize_box (sample_qp "optimal")
           sample_P sample_q None None None None None None None None true
           (Some 50%Z) None None None None (sample_qp "optimal") sample_P
           sample_q None None None None None None None None false
           sample_world).
Defined.

Lemma left_in_table_twice (arg old : option pyval) :
  left_in_table arg (left_in_table arg old) = left_in_table arg old.
Proof. destruct arg as [v|]; [|done]. cbn. by destruct (truthy v). Qed.

Lemma options_after_twice verbose maxiters abstol reltol feastol refinement t :
  options_after verbose maxiters abstol reltol feastol refinement
    (options_after verbose maxiters abstol reltol feastol refinement t)
  = options_after verbose maxiters abstol reltol feastol refinement t.
Proof.
  set (t' := options_after _ _ _ _ _ _ t).
  destruct (options_after_lookup verbose maxiters abstol reltol feastol
              refinement t) as (H1 & H2 & H3 & H4 & H5 & H6 & H7).
  destruct (options_after_lookup verbose maxiters abstol reltol feastol
              refinement t') as (K1 & K2 & K3 & K4 & K5 & K6 & K7).
  cbn zeta in *. fold t' in H1, H2, H3, H4, H5, H6, H7.
  apply map_eq. intros k.
  destruct (decide (k ∈ option_names)) as [Hin|Hout]; [|by apply K7].
  unfold option_names in Hin. rewrite !elem_of_cons in Hin.
  destruct Hin as [->|[->|[->|[->|[->|[->|Hin]]]]]].
  - by rewrite K1, H1.
  - by rewrite K2, H2, left_in_table_twice.
  - by rewrite K3, H3, left_in_table_twice.
  - by rewrite K4, H4, left_in_table_twice.
  - by rewrite K5, H5, left_in_table_twice.
  - by rewrite K6, H6, left_in_table_twice.
  - by apply elem_of_nil in Hin.
Qed.

(** X9. Repeating a call with the same [verbose] and tuning arguments
    leaves the option table exactly as the first call left it, whatever
    the problems and the backends' answers are. *)
Theorem repeated_call_same_options
    f `{!BoxConversion f} qp1 P1 q1 G1 h1 A1 b1 lb1 ub1 solver1 initvals1
    qp2 P2 q2 G2 h2 A2 b2 lb2 ub2 solver2 initvals2
    verbose maxiters abstol reltol feastol refinement w :
  let r1 := cvxopt_solve_qp f qp1 P1 q1 G1 h1 A1 b1 lb1 ub1 solver1 initvals1
              verbose maxiters abstol reltol feastol refinement w in
  let r2 := cvxopt_solve_qp f qp2 P2 q2 G2 h2 A2 b2 lb2 ub2 solver2 initvals2
              verbose maxiters abstol reltol feastol refinement r1.2 in
  options r2.2 = options r1.2.
Proof.
  intros r1 r2.
  destruct (one_call_trace f qp1 P1 q1 G1 h1 A1 b1 lb1 ub1 solver1 initvals1
              verbose maxiters abstol reltol feastol refinement w)
    as (t1 & c1 & hp1 & _ & Ho1 & _ & Ht1 & _).
  destruct (one_call_trace f qp2 P2 q2 G2 h2 A2 b2 lb2 ub2 solver2 initvals2
              verbose maxiters abstol reltol feastol refinement r1.2)
    as (t2 & c2 & hp2 & _ & Ho2 & _ & Ht2 & _).
  fold r1 in Ho1. fold r2 in Ho2. rewrite Ho2, Ht2, Ho1, Ht1.
  apply options_after_twice.
Qed.

Lemma repeated_call_same_options_witness :
  options (cvxopt_solve_qp canonicalize_box failing_qp sample_P sample_q
             (Some sample_G) (Some sample_h) None None None None None None
             true (Some 50%Z) None None None None
             (sample_solve (sample_qp "optimal") None None None None true
                (Some 50%Z)).2).2
  = options (sample_solve (sample_qp "optimal") None None None None true
               (Some 50%Z)).2.
Proof.
  exact (repeated_call_same_options canonicalize_box (sample_qp "optimal")
           sample_P sample_q None None None None None None None None
           failing_qp sample_P sample_q (Some sample_G) (Some sample_h) None
           None None None None None true (Some 50%Z) None None None None
           sample_world).
Defined.

(** ** The status test *)

Lemma prefix_iff (n hay : string) :
  String.prefix n hay = true <-> exists post, hay = n +:+ post.
Proof.
  revert hay. induction n as [|a n IH]; intros hay.
  - destruct hay; cbn; (split; [intros _; by eexists|done]).
  - destruct hay as [|b hay]; cbn.
    { split; [done|]. intros [post H]. discriminate H. }
    destruct (Ascii.ascii_dec a b) as [->|Hab].
    + rewrite IH. split; intros [post H]; exists post.
      * by rewrite H.
      * by injection H.
    + split; [done|]. intros [post H]. injection H as -> _. done.
Qed.

(** X10. The test [needle in hay] of line 199 is the substring test: it
    holds exactly when [hay] is some text, then [needle], then some text.
    So a status counts as optimal as soon as "optimal" occurs anywhere in
    it. *)
Theorem contains_iff_substring (needle hay : string) :
  contains needle hay = true
  <-> exists pre post, hay = pre +:+ needle +:+ post.
Proof.
  induction hay as [|a hay IH]; cbn [contains].
  - rewrite orb_false_r, prefix_iff. split.
    + intros [post H]. by exists "", post.
    + intros (pre & post & H). destruct pre; [by exists post|discriminate].
  - rewrite orb_true_iff, prefix_iff, IH. split.
    + intros [[post H]|(pre & post & H)].
      * by exists "", post.
      * exists (String a pre), post. cbn. by rewrite H.
    + intros (pre & post & H). destruct pre as [|a' pre].
      * left. by exists post.
      * right. injection H as -> H. by exists pre, post.
Qed.
